(** * Discrete random variables: a model of [drv/core.py]

    The two classes of the module, [DRV] and [FDRV], are embedded as the
    modules [DRV] and [FDRV]: instance attributes become record fields, methods
    become functions of the instance, and a call either returns a value or
    raises an exception, which is the [result] type below. *)

From Stdlib Require Import QArith.
From stdpp Require Import base option list strings gmap pretty.

(** ** Outcomes of a Python call *)

(** The exceptions that the module and the builtins it calls can raise;
    [NameError] carries the name that is not bound, and [ValidationError] is
    the one the specification gives to the constructor of the collaborator
    [pspace]. *)
Inductive exn : Type :=
| ValueError (msg : string)
| IndexError
| KeyError
| NameError (name : string)
| NotImplementedError
| ValidationError.

Inductive result (A : Type) : Type :=
| Ok (a : A)
| Raise (e : exn).
Arguments Ok {A} a.
Arguments Raise {A} e.

#[export] Instance result_ret : MRet result := fun A a => Ok a.
#[export] Instance result_bind : MBind result := fun A B f r =>
  match r with
  | Ok a => f a
  | Raise e => Raise e
  end.

(** ** Numbers

    The module never fixes the type of the weights: it adds them, starting
    from the literal [0], and compares them with [<], [<=], [>] and [>=].
    [num_zero] stands for the literals [0] and [0.], [num_one] for [1];
    [a > b] is [num_lt b a] and [a >= b] is [num_le b a]. *)
Class PyNum (num : Type) : Type := {
  num_zero : num;
  num_one : num;
  num_add : num -> num -> num;
  num_lt : num -> num -> bool;
  num_le : num -> num -> bool
}.

(** The order facts that [max] needs in order to return a greatest element:
    [num_lt] is a strict weak order (true of every numeric type without
    NaN). *)
Class PyNumOrder (num : Type) `{PyNum num} : Prop := {
  num_lt_irrefl : forall a, num_lt a a = false;
  num_lt_trans : forall a b c,
    num_lt a b = true -> num_lt b c = true -> num_lt a c = true;
  num_lt_cotrans : forall a b c,
    num_lt a c = true -> num_lt a b = false -> num_lt b c = true
}.

(** What a total order on numbers with a monotone addition adds: [<=] is the
    complement of [>], and adding a weight that is not negative does not
    make a number smaller (true of the integers, of the rationals and of
    floating-point numbers without NaN). *)
Class PyNumAdd (num : Type) `{PyNum num} : Prop := {
  num_le_lt : forall a b, num_le a b = negb (num_lt b a);
  num_add_nonneg : forall a p,
    num_lt p num_zero = false -> num_le a (num_add a p) = true
}.

(** Exact addition: adding a positive weight makes a number strictly
    greater (true of the integers and of the rationals; floating-point
    addition can absorb a small weight). *)
Class PyNumExact (num : Type) `{PyNum num} : Prop := {
  num_add_pos : forall a p,
    num_lt num_zero p = true -> num_lt a (num_add a p) = true
}.

(** ** Builtins *)

Section Builtins.
Context {num : Type} `{PyNum num}.

(** [sum(iterable)]: left to right, starting from [0]. *)
Definition py_sum (l : list num) : num := foldl num_add num_zero l.

(** [enumerate(iterable)] *)
Definition enumerate {A : Type} (l : list A) : list (nat * A) := imap pair l.

(** The loop of [max(iterable, key=key)]: the running maximum is replaced
    only by an item whose key is strictly greater. *)
Fixpoint max_from {A : Type} (key : A -> num) (cur : A) (l : list A) : A :=
  match l with
  | [] => cur
  | y :: l' => max_from key (if num_lt (key cur) (key y) then y else cur) l'
  end.

(** [max(iterable, key=key)] *)
Definition py_max {A : Type} (key : A -> num) (l : list A) : result A :=
  match l with
  | [] => Raise (ValueError "max() arg is an empty sequence")
  | x :: l' => Ok (max_from key x l')
  end.

(** [l.index(k)]: the first position holding a value equal to [k], or a
    [ValueError]; both callers in the module catch it, so its message is
    never seen. *)
Definition index {A : Type} `{EqDecision A} (l : list A) (k : A) : result nat :=
  match list_find (fun x => x = k) l with
  | Some (i, _) => Ok i
  | None => Raise (ValueError "value is not in list")
  end.

(** [l[i]] for a non-negative [i] *)
Definition getitem {A : Type} (l : list A) (i : nat) : result A :=
  match l !! i with
  | Some a => Ok a
  | None => Raise IndexError
  end.

(** [l[-1]] *)
Definition getitem_last {A : Type} (l : list A) : result A :=
  match last l with
  | Some a => Ok a
  | None => Raise IndexError
  end.

End Builtins.

(** ** The collaborator [pspace]

    [core.py] imports the module [pspace] and uses two things of it: the
    constructor [pspace.FDPSpace(ps)] and the attribute [ps] of the object it
    builds. The object is the record below; the constructor is a parameter of
    [FDRV.__init__]. *)
Record FDPSpace (num : Type) : Type := { ps : list num }.
Arguments ps {num} _.

(** ** Module-level names

    [ppf] reads the global name [PPF_DOMAIN] for the message of its
    [ValueError]. [core.py] binds the names [pspace], [DRV] and [FDRV] and no
    other, and imports nothing else, so reading [PPF_DOMAIN] raises
    [NameError]. *)
Definition PPF_DOMAIN : result string := Raise (NameError "PPF_DOMAIN").

(** ** class DRV *)

Module DRV.
Section DRV.
Context {num P Omega : Type}.

(** The attributes set by [__init__]: the probability space, the function
    from it into the outcome set [V], and the name. *)
Record t (V : Type) : Type := { pspace : P; func : Omega -> V; name : string }.
Arguments pspace {V} _.
Arguments func {V} _.
Arguments name {V} _.

Definition __init__ {V : Type} (pspace : P) (func : Omega -> V) (name : string)
  : result (t V) :=
  Ok {| pspace := pspace; func := func; name := name |}.

(** The name of the class of [self]; the module defines no subclass. *)
Definition _cls {V : Type} (self : t V) : string := "DRV".

Definition __repr__ {V : Type} (self : t V) : string :=
  _cls self +:+ "(" +:+ name self +:+ ")".

Definition __str__ {V : Type} (self : t V) : string := name self.

Definition mode {V : Type} (self : t V) : result V :=
  Raise NotImplementedError.

Definition support {V : Type} (self : t V) : result (list V) :=
  Raise NotImplementedError.

Definition pmf {V : Type} (self : t V) (k : V) : result num :=
  Raise NotImplementedError.

Definition flatten {V : Type} (self : t V) : result (t V) :=
  Raise NotImplementedError.

(** [klass] is either [None] or a callable taking what [__init__] takes;
    [klass or self.__class__] is then that callable or the class of [self]. *)
Definition map {V W : Type} (self : t V) (function : V -> W) (name : string)
    (klass : option (P -> (Omega -> W) -> string -> result (t W)))
    (flatten_arg : bool) : result (t W) :=
  let klass := default __init__ klass in
  let func := fun x => function (func self x) in
  drv ← klass (pspace self) func name;
  if negb flatten_arg then Ok drv else flatten drv.

End DRV.
Arguments t {P Omega} V.
Arguments pspace {P Omega V} _.
Arguments func {P Omega V} _.
Arguments name {P Omega V} _.
End DRV.

(** ** class FDRV *)

Module FDRV.
Section FDRV.
Context {num : Type} `{PyNum num}.
Context {X : Type} `{EqDecision X}.

(** [str(k)] of a category, as [format] prints it. *)
Variable str : X -> string.

(** The constructor of the collaborator, [pspace.FDPSpace]. *)
Variable FDPSpace_new : list num -> result (FDPSpace num).

(** The attributes set by [__init__]. *)
Record t : Type := {
  pspace : FDPSpace num;
  xs : list X;
  _xdict : gmap nat X;
  name : string
}.

Definition __init__ (name : string) (xs : list X) (ps : list num) : result t :=
  pspace ← FDPSpace_new ps;
  Ok {| pspace := pspace;
        xs := xs;
        _xdict := list_to_map (enumerate xs);
        name := name |}.

Definition func (self : t) (k : nat) : result X :=
  match _xdict self !! k with
  | Some x => Ok x
  | None => Raise KeyError
  end.

(** [zip] stops at the end of the shorter sequence. *)
Definition items (self : t) : list (X * num) :=
  zip (xs self) (ps (pspace self)).

Definition mode (self : t) : result X :=
  m ← py_max snd (items self);
  Ok (fst m).

Definition support (self : t) : list X :=
  fst <$> filter (fun xp => num_lt num_zero (snd xp) = true) (items self).

Definition _cdf (self : t) (i : nat) : num :=
  py_sum ((fun jxp => snd (snd jxp)) <$>
          filter (fun jxp => fst jxp <= i) (enumerate (items self))).

Definition cdf (self : t) (k : X) : result num :=
  match index (xs self) k with
  | Ok i => Ok (_cdf self i)
  | Raise (ValueError _) =>
      Raise (ValueError ("Category '" +:+ str k +:+ "' is not supported."))
  | Raise e => Raise e
  end.

Definition pmf (self : t) (k : X) : result num :=
  match index (xs self) k with
  | Ok i => getitem (ps (pspace self)) i
  | Raise (ValueError _) => Ok num_zero
  | Raise e => Raise e
  end.

(** The [for] loop of [ppf]: [Some x] when it returns [x], [None] when it
    runs to the end of the sequence. *)
Fixpoint ppf_loop (self : t) (q : num) (l : list X) : result (option X) :=
  match l with
  | [] => Ok None
  | x :: l' =>
      c ← cdf self x;
      if num_le q c then Ok (Some x) else ppf_loop self q l'
  end.

Definition ppf (self : t) (q : num) : result X :=
  if negb (num_lt num_zero q && num_le q num_one)
  then msg ← PPF_DOMAIN; Raise (ValueError msg)
  else
    r ← ppf_loop self q (xs self);
    match r with
    | Some x => Ok x
    | None => getitem_last (xs self)
    end.

(** What [other] can be bound to at a call of [binop]: an instance of
    [DRV], an instance of [FDRV], or a value of neither class. [binop] can
    return the singleton [NotImplemented]. *)
Inductive pyobj {P Omega : Type} : Type :=
| Obj_DRV (d : DRV.t (P:=P) (Omega:=Omega) X)
| Obj_FDRV (d : t)
| Obj_num (n : num)
| Obj_None
| NotImplemented.

(** [isinstance(other, DRV)]: [FDRV] derives from [object], not from
    [DRV]. *)
Definition isinstance_DRV {P Omega : Type} (other : @pyobj P Omega) : bool :=
  match other with
  | Obj_DRV _ => true
  | _ => false
  end.

Definition binop {P Omega : Type} (self : t) (other : @pyobj P Omega)
    (operator : X -> X -> X) (name : string) (klass : option (@pyobj P Omega))
  : result (@pyobj P Omega) :=
  if negb (isinstance_DRV other) then Ok NotImplemented
  else Raise NotImplementedError.

End FDRV.
Arguments t num X : clear implicits.
End FDRV.

(** ** Exact weights

    Rational numbers as an instance of the number interface, and the
    collaborator over them. *)

#[export] Instance Q_num : PyNum Q := {
  num_zero := 0%Q;
  num_one := 1%Q;
  num_add := Qplus;
  num_lt := fun a b => negb (Qle_bool b a);
  num_le := Qle_bool
}.

(** Modelled from the spec: the constructor [pspace.FDPSpace] of the
    collaborator module [pspace], which [core.py] imports. It fails with
    [ValidationError] if a weight is negative or if the weights sum to zero,
    and otherwise divides every weight by the sum (the quotients are kept in
    lowest terms). *)
Definition FDPSpace_spec (raw : list Q) : result (FDPSpace Q) :=
  if existsb (fun w => num_lt w 0%Q) raw then Raise ValidationError
  else if Qeq_bool (py_sum raw) 0%Q then Raise ValidationError
  else Ok {| ps := (fun w => Qred (w / py_sum raw)) <$> raw |}.

(** Categories that are integers, printed in decimal. *)
Definition str_Z (k : Z) : string := pretty k.

Definition FDRV_Q : string -> list Z -> list Q -> result (FDRV.t Q Z) :=
  FDRV.__init__ FDPSpace_spec.

(** ** Notions used by the statements *)

Section Notions.
Context {num : Type} `{PyNum num}.
Context {X : Type} `{EqDecision X}.
Variable str : X -> string.

(** [cdf(x) >= q] holds: the call returns a number that [q] is at most. *)
Definition reaches (self : FDRV.t num X) (q : num) (x : X) : Prop :=
  exists c, FDRV.cdf str self x = Ok c /\ num_le q c = true.

(** [sum(pmf(x) for x in l)], the accumulator starting at [acc]: an
    exception of [pmf] ends the sum. *)
Fixpoint sum_pmf_from (self : FDRV.t num X) (acc : num) (l : list X)
  : result num :=
  match l with
  | [] => Ok acc
  | x :: l' => p ← FDRV.pmf self x; sum_pmf_from self (num_add acc p) l'
  end.

Definition sum_pmf (self : FDRV.t num X) (l : list X) : result num :=
  sum_pmf_from self num_zero l.

(** [k] occurs in [l], and first at position [i]. *)
Definition first_at (l : list X) (k : X) (i : nat) : Prop :=
  l !! i = Some k /\ forall j, j < i -> l !! j <> Some k.

End Notions.

(** ** Two variables of the specification's scenarios, and three more *)

Definition mk_FDRV (name : string) (xs : list Z) (ps : list Q) : FDRV.t Q Z :=
  {| FDRV.pspace := {| ps := ps |};
     FDRV.xs := xs;
     FDRV._xdict := list_to_map (enumerate xs);
     FDRV.name := name |}.

(** A fair six-sided die. *)
Definition die : FDRV.t Q Z :=
  mk_FDRV "d6" [1; 2; 3; 4; 5; 6]%Z [1#6; 1#6; 1#6; 1#6; 1#6; 1#6]%Q.

(** A biased coin, heads as 0 and tails as 1. *)
Definition coin : FDRV.t Q Z := mk_FDRV "coin" [0; 1]%Z [9#10; 1#10]%Q.

(** A category listed twice, with half of the mass at each position. *)
Definition twice : FDRV.t Q Z := mk_FDRV "twice" [1; 1]%Z [1#2; 1#2]%Q.

(** A category listed twice before another one. *)
Definition repeated : FDRV.t Q Z :=
  mk_FDRV "repeated" [1; 1; 2]%Z [1#4; 1#2; 1#4]%Q.

(** Two categories and one weight. *)
Definition lopsided : FDRV.t Q Z := mk_FDRV "lopsided" [1; 2]%Z [1]%Q.

(** A coin whose second category carries most of the mass. *)
Definition tails_heavy : FDRV.t Q Z :=
  mk_FDRV "tails_heavy" [0; 1]%Z [1#10; 9#10]%Q.

(** No category, and one weight. *)
Definition nothing : FDRV.t Q Z := mk_FDRV "nothing" []%Z [1]%Q.


(** * Properties *)

(** ** Builtins *)

Section BuiltinFacts.
Context {num : Type} `{PyNum num}.

Lemma index_Ok {A : Type} `{EqDecision A} (l : list A) (k : A) (i : nat) :
  index l k = Ok i <->
  l !! i = Some k /\ forall j, j < i -> l !! j <> Some k.
Proof.
  unfold index. split.
  - destruct (list_find _ l) as [[i' y]|] eqn:Hfind; [|done].
    intros [= ->]. apply list_find_Some in Hfind as (Hi & -> & Hmin).
    split; [done|]. intros j Hj Hk. by eapply Hmin.
  - intros [Hi Hmin].
    assert (list_find (fun x => x = k) l = Some (i, k)) as ->; [|done].
    apply list_find_Some. split_and!; [done..|].
    intros j y Hy Hj ->. by eapply Hmin.
Qed.

Lemma index_Raise {A : Type} `{EqDecision A} (l : list A) (k : A) :
  k ∉ l <-> index l k = Raise (ValueError "value is not in list").
Proof.
  unfold index. split.
  - intros Hk. destruct (list_find _ l) as [[i y]|] eqn:Hfind; [|done].
    apply list_find_Some in Hfind as (Hi & -> & _).
    by apply list_elem_of_lookup_2 in Hi.
  - destruct (list_find _ l) as [[i y]|] eqn:Hfind; [done|]. intros _ Hk.
    apply list_find_None in Hfind. rewrite Forall_forall in Hfind.
    by eapply Hfind.
Qed.

Lemma index_elem_of {A : Type} `{EqDecision A} (l : list A) (k : A) :
  k ∈ l -> exists i, index l k = Ok i /\ i < length l.
Proof.
  intros Hk. unfold index.
  destruct (list_find_elem_of (fun x => x = k) l k Hk eq_refl) as [[i y] Hfind].
  rewrite Hfind. exists i. split; [done|].
  apply list_find_Some in Hfind as (Hi & _). by eapply lookup_lt_Some.
Qed.

(** The items that [enumerate] numbers up to [i] are the first [i + 1]. *)
Lemma filter_enumerate_le {A : Type} (l : list A) (n i : nat) :
  snd <$> filter (fun t => fst t <= i) (imap (fun j x => (n + j, x)) l)
  = take (S i - n) l.
Proof.
  revert n. induction l as [|x l IH]; intros n.
  - by rewrite take_nil.
  - rewrite imap_cons, filter_cons. simpl fst.
    rewrite (imap_ext _ (fun j x => (S n + j, x)) l)
      by (intros; simpl; f_equal; lia).
    destruct (decide (n + 0 <= i)) as [Hle|Hgt].
    + rewrite fmap_cons, IH. simpl snd.
      replace (S i - n) with (S (i - n)) by lia.
      simpl. f_equal.
    + rewrite IH. replace (S i - n) with 0 by lia.
      replace (S i - S n) with 0 by lia. done.
Qed.

Lemma snd_zip_take {A B : Type} (l : list A) (k : list B) :
  snd <$> zip l k = take (length l) k.
Proof.
  revert k. induction l as [|x l IH]; intros [|y k]; simpl; [done..|].
  by rewrite IH.
Qed.

Lemma fst_zip_take {A B : Type} (l : list A) (k : list B) :
  fst <$> zip l k = take (length k) l.
Proof.
  revert k. induction l as [|x l IH]; intros [|y k]; simpl; [done..|].
  by rewrite IH.
Qed.

End BuiltinFacts.

(** ** The finite variable: [pmf] and [cdf] *)

Section FDRVFacts.
Context {num : Type} `{PyNum num}.
Context {X : Type} `{EqDecision X}.
Variable str : X -> string.
Implicit Types (self : FDRV.t num X) (k x : X) (q : num) (i j : nat).

(** An item is a category and the weight at the same position. *)
Lemma lookup_items self i x (p : num) :
  FDRV.items self !! i = Some (x, p) <->
  FDRV.xs self !! i = Some x /\ ps (FDRV.pspace self) !! i = Some p.
Proof.
  unfold FDRV.items. rewrite lookup_zip_with_Some. split.
  - by intros (x' & p' & [= -> ->] & Hx & Hp).
  - intros [Hx Hp]. by exists x, p.
Qed.

Lemma first_at_index (l : list X) k i : first_at l k i <-> index l k = Ok i.
Proof. unfold first_at. by rewrite index_Ok. Qed.

(** [_cdf(i)] adds the first [i + 1] weights when [i] is the position of a
    category. *)
Lemma _cdf_take self i :
  i < length (FDRV.xs self) ->
  FDRV._cdf self i = py_sum (take (S i) (ps (FDRV.pspace self))).
Proof.
  intros Hi. unfold FDRV._cdf, FDRV.items, enumerate. f_equal.
  change (fun jxp : nat * (X * num) => snd (snd jxp))
    with (@snd X num ∘ @snd nat (X * num)).
  rewrite list_fmap_compose.
  rewrite (filter_enumerate_le (zip _ _) 0 i), Nat.sub_0_r.
  rewrite fmap_take, snd_zip_take, take_take. f_equal. lia.
Qed.

Lemma cdf_index_Ok self k i :
  index (FDRV.xs self) k = Ok i ->
  FDRV.cdf str self k = Ok (py_sum (take (S i) (ps (FDRV.pspace self)))).
Proof.
  intros Hi. unfold FDRV.cdf. rewrite Hi. f_equal. apply _cdf_take.
  apply index_Ok in Hi as [Hi _]. by eapply lookup_lt_Some.
Qed.

(** [cdf] returns a number at every listed category. *)
Lemma cdf_elem_of self x :
  x ∈ FDRV.xs self -> exists c, FDRV.cdf str self x = Ok c.
Proof.
  intros (i & Hi & _)%index_elem_of. eexists. by apply cdf_index_Ok.
Qed.

Lemma pmf_index_Ok self k i :
  index (FDRV.xs self) k = Ok i ->
  FDRV.pmf self k = getitem (ps (FDRV.pspace self)) i.
Proof. intros Hi. unfold FDRV.pmf. by rewrite Hi. Qed.

Lemma sum_pmf_from_weights self (l : list X) (w : list num) (acc : num) :
  Forall2 (fun x p => FDRV.pmf self x = Ok p) l w ->
  sum_pmf_from self acc l = Ok (foldl num_add acc w).
Proof.
  intros Hlw. revert acc.
  induction Hlw as [|x p l w Hx _ IH]; intros acc; simpl; [done|].
  rewrite Hx. simpl. apply IH.
Qed.

(** In a prefix without repetition every category is found where it
    stands. *)
Lemma index_NoDup_prefix (l : list X) (n j : nat) x :
  NoDup (take n l) -> j < n -> l !! j = Some x -> index l x = Ok j.
Proof.
  intros Hnd Hj Hx. apply index_Ok. split; [done|].
  intros j' Hj' Hx'.
  assert (j' = j); [|lia].
  eapply (NoDup_lookup (take n l)); [done|..].
  - rewrite lookup_take_lt by lia. done.
  - rewrite lookup_take_lt by lia. done.
Qed.

(** C6. [cdf(k)] raises the [ValueError] of the method whenever [k] is not
    one of the categories of the variable. *)
Theorem cdf_unknown_category self k :
  k ∉ FDRV.xs self ->
  FDRV.cdf str self k =
    Raise (ValueError ("Category '" +:+ str k +:+ "' is not supported.")).
Proof.
  intros Hk%index_Raise. unfold FDRV.cdf. by rewrite Hk.
Qed.

(** C5. [pmf(k)] returns [0] and raises nothing when [k] is not one of the
    categories, and returns the weight at the first position of [k] when
    [k] is one of them. *)
Theorem pmf_zero_or_weight self k :
  (k ∉ FDRV.xs self -> FDRV.pmf self k = Ok num_zero) /\
  (forall i w, first_at (FDRV.xs self) k i ->
     ps (FDRV.pspace self) !! i = Some w -> FDRV.pmf self k = Ok w).
Proof.
  split.
  - intros Hk%index_Raise. unfold FDRV.pmf. by rewrite Hk.
  - intros i w Hi%first_at_index Hw.
    rewrite (pmf_index_Ok _ _ _ Hi). unfold getitem. by rewrite Hw.
Qed.

(** C2, amended. [cdf(k)] returns the sum of the weights at the positions
    [0..i], in stored order, where [i] is the first position of [k]; when
    the categories at the positions [0..i] are pairwise distinct and each
    of them has a weight, that is also the sum of [pmf(x)] over
    [categories[0..i]]. *)
Theorem cdf_prefix_sum self k i :
  first_at (FDRV.xs self) k i ->
  FDRV.cdf str self k = Ok (py_sum (take (S i) (ps (FDRV.pspace self)))) /\
  (NoDup (take (S i) (FDRV.xs self)) ->
   S i <= length (ps (FDRV.pspace self)) ->
   sum_pmf self (take (S i) (FDRV.xs self)) = FDRV.cdf str self k).
Proof.
  intros Hi%first_at_index. split; [by apply cdf_index_Ok|].
  intros Hnd Hlen. rewrite (cdf_index_Ok _ _ _ Hi).
  apply sum_pmf_from_weights.
  assert (i < length (FDRV.xs self)) as Hlt.
  { apply index_Ok in Hi as [Hi _]. by eapply lookup_lt_Some. }
  apply Forall2_same_length_lookup. split.
  - rewrite !length_take. lia.
  - intros j x p [Hx Hj]%lookup_take_Some [Hp _]%lookup_take_Some.
    rewrite (pmf_index_Ok _ _ j) by (by eapply index_NoDup_prefix).
    unfold getitem. by rewrite Hp.
Qed.

End FDRVFacts.

(** ** The finite variable: [ppf] *)

Section PpfFacts.
Context {num : Type} `{PyNum num}.
Context {X : Type} `{EqDecision X}.
Variable str : X -> string.
Implicit Types (self : FDRV.t num X) (k x : X) (q : num) (i j : nat).

(** Over categories of the variable the loop raises nothing. *)
Lemma ppf_loop_total self q (l : list X) :
  l ⊆ FDRV.xs self -> exists r, FDRV.ppf_loop str self q l = Ok r.
Proof.
  induction l as [|x l IH]; intros Hl; simpl; [by eexists|].
  destruct (cdf_elem_of str self x) as [c ->]; [set_solver|]. simpl.
  destruct (num_le q c); [by eexists|]. apply IH. set_solver.
Qed.

(** The loop returns the first category at which [cdf] reaches [q]. *)
Lemma ppf_loop_first self q (l : list X) i x :
  l !! i = Some x ->
  reaches str self q x ->
  (forall j y, j < i -> l !! j = Some y -> ~ reaches str self q y) ->
  (forall j y, j < i -> l !! j = Some y -> y ∈ FDRV.xs self) ->
  FDRV.ppf_loop str self q l = Ok (Some x).
Proof.
  revert i. induction l as [|y l IH]; intros [|i] Hi Hx Hbefore Hin;
    simplify_eq/=.
  - destruct Hx as (c & -> & Hc). simpl. by rewrite Hc.
  - destruct (cdf_elem_of str self y) as [c Hc]; [apply (Hin 0); [lia|done]|].
    rewrite Hc. simpl.
    destruct (num_le q c) eqn:Hq.
    + destruct (Hbefore 0 y); [lia|done|]. by exists c.
    + apply (IH i); [done..| |].
      * intros j z Hj Hz. apply (Hbefore (S j)); [lia|done].
      * intros j z Hj Hz. apply (Hin (S j)); [lia|done].
Qed.

(** The loop runs to the end when [cdf] reaches [q] at no category. *)
Lemma ppf_loop_none self q (l : list X) :
  l ⊆ FDRV.xs self ->
  (forall y, y ∈ l -> ~ reaches str self q y) ->
  FDRV.ppf_loop str self q l = Ok None.
Proof.
  induction l as [|x l IH]; intros Hl Hnone; simpl; [done|].
  destruct (cdf_elem_of str self x) as [c Hc]; [set_solver|].
  rewrite Hc. simpl. destruct (num_le q c) eqn:Hq.
  - destruct (Hnone x); [set_solver|]. by exists c.
  - apply IH; set_solver.
Qed.

(** What the loop returns is a category at which [cdf] reaches [q]. *)
Lemma ppf_loop_Some self q (l : list X) x :
  FDRV.ppf_loop str self q l = Ok (Some x) -> reaches str self q x.
Proof.
  induction l as [|y l IH]; simpl; [done|].
  destruct (FDRV.cdf str self y) as [c|e] eqn:Hc; simpl; [|done].
  destruct (num_le q c) eqn:Hq; [|done].
  intros [= <-]. by exists c.
Qed.

(** C3. For [0 < q <= 1], [ppf(q)] returns the category of smallest index
    at which [cdf] reaches [q]; when [cdf] reaches [q] at no category, it
    returns the last category. *)
Theorem ppf_first_reaching self q :
  num_lt num_zero q = true -> num_le q num_one = true ->
  (forall i x, FDRV.xs self !! i = Some x ->
     reaches str self q x ->
     (forall j y, j < i -> FDRV.xs self !! j = Some y ->
        ~ reaches str self q y) ->
     FDRV.ppf str self q = Ok x) /\
  (forall x, (forall y, y ∈ FDRV.xs self -> ~ reaches str self q y) ->
     last (FDRV.xs self) = Some x ->
     FDRV.ppf str self q = Ok x).
Proof.
  intros Hpos Hone. unfold FDRV.ppf. rewrite Hpos, Hone. simpl. split.
  - intros i x Hi Hx Hbefore.
    rewrite (ppf_loop_first self q _ i x); [done..|].
    intros j y _ Hy. by eapply list_elem_of_lookup_2.
  - intros x Hnone Hlast.
    rewrite ppf_loop_none; [|done..]. simpl.
    unfold getitem_last. by rewrite Hlast.
Qed.

(** Outside [(0, 1]] [ppf] raises the [NameError] of the unbound name
    [PPF_DOMAIN]; whatever [q] is, it raises no [ValueError]. *)
Lemma ppf_Raise_NameError_iff self q :
  (FDRV.ppf str self q = Raise (NameError "PPF_DOMAIN") <->
   ~ (num_lt num_zero q = true /\ num_le q num_one = true)) /\
  (forall msg, FDRV.ppf str self q <> Raise (ValueError msg)).
Proof.
  unfold FDRV.ppf.
  destruct (ppf_loop_total self q (FDRV.xs self)) as [r Hr]; [done|].
  destruct (num_lt num_zero q), (num_le q num_one); simpl;
    try (split; [split; [intros _ [? ?]; done | done] | done]).
  rewrite Hr. simpl. unfold getitem_last.
  split; [split|].
  - destruct r; [done|]. by destruct (last _).
  - intros []. done.
  - intros msg. destruct r; [done|]. by destruct (last _).
Qed.

(** When [cdf] reaches [q] at some category of [l], the loop returns. *)
Lemma ppf_loop_finds self q (l : list X) y :
  l ⊆ FDRV.xs self -> y ∈ l -> reaches str self q y ->
  exists x, FDRV.ppf_loop str self q l = Ok (Some x).
Proof.
  intros Hl Hy (c & Hc & Hq).
  induction l as [|z l IH]; simpl; [by destruct (not_elem_of_nil y)|].
  destruct (cdf_elem_of str self z) as [c' Hc'].
  { apply Hl, elem_of_cons. by left. }
  rewrite Hc'. simpl. destruct (num_le q c') eqn:Hq'; [by eexists|].
  apply elem_of_cons in Hy as [->|Hy]; [congruence|].
  apply IH; [|done]. intros x Hx. apply Hl, elem_of_cons. by right.
Qed.

(** C7, amended. For [q] in [(0, 1]] such that [cdf] reaches [q] at some
    category, [ppf(q)] returns a category and [cdf(ppf(q)) >= q]. *)
Theorem cdf_ppf_reaches self q :
  num_lt num_zero q = true -> num_le q num_one = true ->
  (exists y, y ∈ FDRV.xs self /\ reaches str self q y) ->
  exists x, FDRV.ppf str self q = Ok x /\ reaches str self q x.
Proof.
  intros Hpos Hone (y & Hy & Hreach). unfold FDRV.ppf.
  rewrite Hpos, Hone. simpl.
  destruct (ppf_loop_finds self q (FDRV.xs self) y) as [x Hx]; [done..|].
  rewrite Hx. simpl. exists x. split; [done|]. by eapply ppf_loop_Some.
Qed.

(** X19. With an empty sequence of categories the fallback has nothing to
    return: [xs[-1]] raises [IndexError]. *)
Lemma ppf_no_category self q :
  num_lt num_zero q = true -> num_le q num_one = true ->
  FDRV.xs self = [] -> FDRV.ppf str self q = Raise IndexError.
Proof.
  intros Hpos Hone Hxs. unfold FDRV.ppf. by rewrite Hpos, Hone, Hxs.
Qed.

(** What the loop returns is an element of the sequence it reads. *)
Lemma ppf_loop_Some_elem_of self q (l : list X) x :
  FDRV.ppf_loop str self q l = Ok (Some x) -> x ∈ l.
Proof.
  induction l as [|y l IH]; simpl; [done|].
  destruct (FDRV.cdf str self y) as [c|e]; simpl; [|done].
  destruct (num_le q c).
  - intros [= ->]. by left.
  - intros Hl. right. by apply IH.
Qed.

(** X18. With at least one category and [q] in [(0, 1]], [ppf] returns, and
    what it returns is one of the categories. *)
Lemma ppf_returns_category self q :
  num_lt num_zero q = true -> num_le q num_one = true ->
  FDRV.xs self <> [] ->
  exists x, FDRV.ppf str self q = Ok x /\ x ∈ FDRV.xs self.
Proof.
  intros Hpos Hone Hne. unfold FDRV.ppf. rewrite Hpos, Hone. simpl.
  destruct (ppf_loop_total self q (FDRV.xs self)) as [[x|] Hr]; [done|..];
    rewrite Hr; simpl.
  - exists x. split; [done|]. by eapply ppf_loop_Some_elem_of.
  - unfold getitem_last.
    destruct (last (FDRV.xs self)) as [x|] eqn:Hlast.
    + exists x. split; [done|]. by apply last_Some_elem_of.
    + by apply last_None in Hlast.
Qed.

End PpfFacts.

(** ** The finite variable: [mode] *)

Section ModeFacts.
Context {num : Type} `{PyNumOrder num}.

(** The running maximum of [max] is the first greatest item of what has
    been read, and stays so to the end of the sequence. *)
Lemma max_from_first_greatest {A : Type} (key : A -> num)
    (l0 l : list A) (c : nat) (cur : A) :
  l0 !! c = Some cur ->
  (forall j y, l0 !! j = Some y -> num_lt (key cur) (key y) = false) ->
  (forall j y, j < c -> l0 !! j = Some y -> num_lt (key y) (key cur) = true) ->
  exists i,
    (l0 ++ l) !! i = Some (max_from key cur l) /\
    (forall j y, (l0 ++ l) !! j = Some y ->
       num_lt (key (max_from key cur l)) (key y) = false) /\
    (forall j y, j < i -> (l0 ++ l) !! j = Some y ->
       num_lt (key y) (key (max_from key cur l)) = true).
Proof.
  revert l0 c cur. induction l as [|y l IH]; intros l0 c cur Hc Hall Hbefore.
  - rewrite app_nil_r. by exists c.
  - simpl. rewrite (cons_middle y l0 l), app_assoc.
    destruct (num_lt (key cur) (key y)) eqn:Hlt.
    + apply (IH (l0 ++ [y]) (length l0) y).
      * by rewrite lookup_app_r, Nat.sub_diag.
      * intros j z [Hz|[_ Hz]]%lookup_app_Some.
        -- destruct (num_lt (key y) (key z)) eqn:Hyz; [|done].
           rewrite <- (Hall j z Hz). symmetry. by eapply num_lt_trans.
        -- apply list_lookup_singleton_Some in Hz as [_ <-].
           apply num_lt_irrefl.
      * intros j z Hj Hz. rewrite lookup_app_l in Hz by done.
        eapply num_lt_cotrans; [done|]. by eapply Hall.
    + apply (IH (l0 ++ [y]) c cur).
      * by apply lookup_app_l_Some.
      * intros j z [Hz|[_ Hz]]%lookup_app_Some; [by eapply Hall|].
        by apply list_lookup_singleton_Some in Hz as [_ <-].
      * intros j z Hj Hz. apply (Hbefore j); [done|].
        rewrite lookup_app_l in Hz; [done|].
        apply lookup_lt_Some in Hc. lia.
Qed.

Context {X : Type}.

(** C10. [mode] returns a category that stands at a position whose weight
    is greatest among the weights of the categories, and every category
    stored before that position has a strictly smaller weight: among the
    categories of greatest weight it is the earliest. *)
Theorem mode_first_greatest (self : FDRV.t num X) :
  FDRV.xs self <> [] -> ps (FDRV.pspace self) <> [] ->
  exists i x p,
    FDRV.xs self !! i = Some x /\
    ps (FDRV.pspace self) !! i = Some p /\
    FDRV.mode self = Ok x /\
    (forall j y w, FDRV.xs self !! j = Some y ->
       ps (FDRV.pspace self) !! j = Some w -> num_lt p w = false) /\
    (forall j y w, j < i -> FDRV.xs self !! j = Some y ->
       ps (FDRV.pspace self) !! j = Some w -> num_lt w p = true).
Proof.
  intros Hxs Hps. unfold FDRV.mode.
  destruct (FDRV.items self) as [|t l] eqn:Hitems.
  { unfold FDRV.items in Hitems.
    destruct (FDRV.xs self), (ps (FDRV.pspace self)); done. }
  simpl.
  destruct (max_from_first_greatest snd [t] l 0 t) as (i & Hi & Hall & Hbefore).
  - done.
  - intros [|j] y [=]. subst. apply num_lt_irrefl.
  - intros j y Hj. lia.
  - destruct (max_from snd t l) as [x p] eqn:Hmax.
    change (t :: l) with ([t] ++ l) in Hitems. rewrite <- Hitems in *.
    apply lookup_items in Hi as [Hx Hp].
    exists i, x, p. split_and!; [done..| |].
    + intros j y w Hy Hw. apply (Hall j (y, w)). by apply lookup_items.
    + intros j y w Hj Hy Hw. apply (Hbefore j (y, w)); [done|].
      by apply lookup_items.
Qed.

(** X20. Without an item, [max] raises and so does [mode]. *)
Lemma mode_no_item (self : FDRV.t num X) :
  FDRV.items self = [] ->
  FDRV.mode self = Raise (ValueError "max() arg is an empty sequence").
Proof. unfold FDRV.mode. by intros ->. Qed.

End ModeFacts.

(** ** Construction, [binop] and [map] *)

Section Operations.
Context {num : Type} `{PyNum num}.
Context {X : Type} `{EqDecision X}.

(** X22. Construction fails exactly when the collaborator rejects the raw
    weights: the categories are stored without being looked at. *)
Lemma __init___outcome (FDPSpace_new : list num -> result (FDPSpace num))
    (name : string) (xs : list X) (ps : list num) :
  (forall e, FDRV.__init__ FDPSpace_new name xs ps = Raise e <->
     FDPSpace_new ps = Raise e) /\
  (forall space, FDPSpace_new ps = Ok space ->
     exists self, FDRV.__init__ FDPSpace_new name xs ps = Ok self /\
       FDRV.xs self = xs /\ FDRV.pspace self = space).
Proof.
  unfold FDRV.__init__. destruct (FDPSpace_new ps) as [space|e']; simpl.
  - split; [intros e; split; intros [=]|]. intros ? [= <-]. by eexists.
  - split; [intros e; split; intros [= <-]; reflexivity|]. intros ? [=].
Qed.

(** C9. With two finite variables, [binop] returns [NotImplemented]: it
    raises nothing and combines nothing. *)
Theorem binop_FDRV_NotImplemented {P Omega : Type} (a b : FDRV.t num X)
    (operator : X -> X -> X) (name : string)
    (klass : option (@FDRV.pyobj num X P Omega)) :
  FDRV.binop a (FDRV.Obj_FDRV b) operator name klass = Ok FDRV.NotImplemented.
Proof. reflexivity. Qed.

(** The only operand [binop] does not answer [NotImplemented] to is an
    instance of [DRV], and then it raises [NotImplementedError]. *)
Lemma binop_outcome {P Omega : Type} (a : FDRV.t num X)
    (other : @FDRV.pyobj num X P Omega)
    (operator : X -> X -> X) (name : string)
    (klass : option (@FDRV.pyobj num X P Omega)) :
  FDRV.binop a other operator name klass =
    if FDRV.isinstance_DRV other then Raise NotImplementedError
    else Ok FDRV.NotImplemented.
Proof. unfold FDRV.binop. by destruct (FDRV.isinstance_DRV other). Qed.


End Operations.

(** ** Exact weights *)

Lemma Q_num_lt_iff (a b : Q) : num_lt a b = true <-> (a < b)%Q.
Proof.
  simpl. rewrite negb_true_iff, <- not_true_iff_false, Qle_bool_iff.
  split; [apply Qnot_le_lt | apply Qlt_not_le].
Qed.

Lemma Q_num_lt_false_iff (a b : Q) : num_lt a b = false <-> (b <= a)%Q.
Proof.
  simpl. by rewrite negb_false_iff, Qle_bool_iff.
Qed.

#[export] Instance Q_num_order : PyNumOrder Q.
Proof.
  split.
  - intros a. apply Q_num_lt_false_iff, Qle_refl.
  - intros a b c. rewrite !Q_num_lt_iff. apply Qlt_trans.
  - intros a b c. rewrite !Q_num_lt_iff, Q_num_lt_false_iff.
    intros Hac Hba. by eapply Qle_lt_trans.
Qed.

Section ExactFacts.
Context {X : Type} `{EqDecision X}.
Variable str : X -> string.

(** X21. With exact weights that add up to [1], one weight for each category and
    no category listed twice, [cdf] reaches every [q <= 1] at the last
    category, so [ppf] and [cdf] are inverse in the sense of
    [cdf(ppf(q)) >= q]. *)
Lemma cdf_ppf_exact (self : FDRV.t Q X) (q : Q) :
  NoDup (FDRV.xs self) ->
  length (FDRV.xs self) = length (ps (FDRV.pspace self)) ->
  FDRV.xs self <> [] ->
  (py_sum (ps (FDRV.pspace self)) == 1)%Q ->
  num_lt num_zero q = true -> num_le q num_one = true ->
  exists x, FDRV.ppf str self q = Ok x /\ reaches str self q x.
Proof.
  intros Hnd Hlen Hne Hsum Hpos Hone.
  assert (exists l y, FDRV.xs self = l ++ [y]) as (l & y & Hxs).
  { destruct (last (FDRV.xs self)) as [y|] eqn:Hlast.
    - apply last_Some in Hlast as [l Hl]. eauto.
    - by apply last_None in Hlast. }
  assert (index (FDRV.xs self) y = Ok (length l)) as Hidx.
  { apply (index_NoDup_prefix _ (length (FDRV.xs self))).
    - by rewrite firstn_all.
    - rewrite Hxs, length_app. simpl. lia.
    - rewrite Hxs. by rewrite lookup_app_r, Nat.sub_diag. }
  assert (reaches str self q y) as Hreach.
  { eexists. split; [by apply cdf_index_Ok|].
    rewrite take_ge by (rewrite <- Hlen, Hxs, length_app; simpl; lia).
    simpl in *. apply Qle_bool_iff. rewrite Hsum. by apply Qle_bool_iff. }
  unfold FDRV.ppf. rewrite Hpos, Hone. simpl.
  destruct (ppf_loop_finds str self q (FDRV.xs self) y) as [x Hx];
    [done|rewrite Hxs; set_solver|done|].
  rewrite Hx. simpl. exists x. split; [done|]. by eapply ppf_loop_Some.
Qed.

End ExactFacts.

(** ** The scenarios *)

(** Raw weights are normalised by the collaborator: six equal weights make
    the fair die, and [[1, 2, 1]] becomes [[1/4, 1/2, 1/4]]. *)
Example construct_die :
  FDRV_Q "d6" [1; 2; 3; 4; 5; 6]%Z [1; 1; 1; 1; 1; 1]%Q = Ok die.
Proof. reflexivity. Qed.

Example construct_unnormalized :
  FDRV_Q "repeated" [1; 1; 2]%Z [1; 2; 1]%Q = Ok repeated.
Proof. reflexivity. Qed.

Example die_scenario :
  FDRV.pmf die 3%Z = Ok (1#6)%Q /\
  (exists c, FDRV.cdf str_Z die 3%Z = Ok c /\ (c == 1#2)%Q) /\
  FDRV.ppf str_Z die (1#2)%Q = Ok 3%Z /\
  FDRV.support die = [1; 2; 3; 4; 5; 6]%Z /\
  FDRV.mode die = Ok 1%Z.
Proof.
  split_and!; [reflexivity| |reflexivity..].
  eexists. split; [reflexivity|]. reflexivity.
Qed.

Example coin_scenario :
  FDRV.pmf coin 0%Z = Ok (9#10)%Q /\
  (exists c, FDRV.cdf str_Z coin 0%Z = Ok c /\ (c == 9#10)%Q) /\
  (exists c, FDRV.cdf str_Z coin 1%Z = Ok c /\ (c == 1)%Q) /\
  FDRV.ppf str_Z coin (19#20)%Q = Ok 1%Z.
Proof.
  split_and!; [reflexivity| | |reflexivity];
    (eexists; split; [reflexivity|]; reflexivity).
Qed.

(** C1. Construction with the categories [[1, 2]] and the weights [[0.5]]
    raises nothing: it returns a variable with two categories and one
    weight. *)
Theorem construct_mismatched_lengths :
  FDRV_Q "lopsided" [1; 2]%Z [1#2]%Q = Ok lopsided /\
  length (FDRV.xs lopsided) = 2 /\
  length (ps (FDRV.pspace lopsided)) = 1.
Proof. split_and!; reflexivity. Qed.


(** The greatest weight can stand at the second position. *)
Example mode_second_position : FDRV.mode tails_heavy = Ok 1%Z.
Proof. reflexivity. Qed.

(** C2, as stated, fails where a category is listed twice: with the
    categories [[1, 1, 2]] and the weights [[1/4, 1/2, 1/4]], [cdf(2)] is
    [1] and the sum of [pmf] over [categories[0..2]] is [3/4]. *)
Lemma cdf_not_sum_of_pmf :
  FDRV_Q "repeated" [1; 1; 2]%Z [1; 2; 1]%Q = Ok repeated /\
  first_at (FDRV.xs repeated) 2%Z 2 /\
  exists c s,
    FDRV.cdf str_Z repeated 2%Z = Ok c /\
    sum_pmf repeated (take 3 (FDRV.xs repeated)) = Ok s /\
    (c == 1)%Q /\ (s == 3#4)%Q /\ ~ (c == s)%Q.
Proof.
  split; [reflexivity|]. split.
  - split; [reflexivity|]. intros [|[|j]] Hj; [done..|lia].
  - eexists _, _. split_and!; [reflexivity..|done].
Qed.

(** The fair die at the category [3], whose first position is [2]. *)
Lemma cdf_prefix_sum_witness :
  first_at (FDRV.xs die) 3%Z 2 /\
  NoDup (take 3 (FDRV.xs die)) /\
  3 <= length (ps (FDRV.pspace die)) /\
  FDRV.cdf str_Z die 3%Z = Ok (py_sum (take 3 (ps (FDRV.pspace die)))) /\
  sum_pmf die (take 3 (FDRV.xs die)) = FDRV.cdf str_Z die 3%Z.
Proof.
  assert (first_at (FDRV.xs die) 3%Z 2) as Hfirst.
  { split; [reflexivity|]. intros [|[|j]] Hj; [done..|lia]. }
  assert (NoDup (take 3 (FDRV.xs die))) as Hnd.
  { apply (bool_decide_unpack _). reflexivity. }
  assert (3 <= length (ps (FDRV.pspace die))) as Hlen.
  { simpl. lia. }
  destruct (cdf_prefix_sum str_Z die 3%Z 2 Hfirst) as [Hcdf Hsum].
  split_and!; [done..|]. by apply Hsum.
Defined.

(** The fair die at [q = 1/2]: [cdf] first reaches it at the category [3]. *)
Lemma ppf_first_reaching_witness :
  num_lt num_zero (1#2)%Q = true /\ num_le (1#2)%Q num_one = true /\
  FDRV.ppf str_Z die (1#2)%Q = Ok 3%Z.
Proof.
  assert (num_lt num_zero (1#2)%Q = true) as Hpos by reflexivity.
  assert (num_le (1#2)%Q num_one = true) as Hone by reflexivity.
  split_and!; [done..|].
  destruct (ppf_first_reaching str_Z die (1#2)%Q Hpos Hone)
    as [Hfirst _].
  apply (Hfirst 2).
  - reflexivity.
  - eexists. split; reflexivity.
  - intros j y Hj Hy (c & Hcdf & Hc).
    destruct j as [|[|j]]; [| |lia];
      injection Hy as <-; injection Hcdf as <-; discriminate Hc.
Defined.

(** C4. On the fair die at [q = 0], which is outside [(0, 1]], [ppf] raises
    the [NameError] of the unbound name [PPF_DOMAIN] and no [ValueError]. *)
Theorem ppf_outside_domain_NameError :
  ~ (num_lt num_zero 0%Q = true /\ num_le 0%Q num_one = true) /\
  FDRV.ppf str_Z die 0%Q = Raise (NameError "PPF_DOMAIN") /\
  forall msg, FDRV.ppf str_Z die 0%Q <> Raise (ValueError msg).
Proof.
  split_and!; [by intros [? _]|reflexivity|done].
Qed.

(** The fair die at [7], which is no category, and at the category [3]. *)
Lemma pmf_zero_or_weight_witness :
  FDRV.pmf die 7%Z = Ok 0%Q /\ FDRV.pmf die 3%Z = Ok (1#6)%Q.
Proof.
  destruct (pmf_zero_or_weight die 7%Z) as [Hzero _].
  destruct (pmf_zero_or_weight die 3%Z) as [_ Hweight].
  split.
  - apply Hzero. apply (bool_decide_unpack _). reflexivity.
  - apply (Hweight 2); [|reflexivity].
    split; [reflexivity|]. intros [|[|j]] Hj; [done..|lia].
Defined.

(** The fair die at [7], which is no category. *)
Lemma cdf_unknown_category_witness :
  (7%Z ∉ FDRV.xs die) /\
  FDRV.cdf str_Z die 7%Z =
    Raise (ValueError ("Category '" +:+ str_Z 7%Z +:+ "' is not supported.")).
Proof.
  assert (7%Z ∉ FDRV.xs die) as Hk.
  { apply (bool_decide_unpack _). reflexivity. }
  split; [done|]. by apply cdf_unknown_category.
Defined.

(** C7, as stated, fails where a category is listed twice: with the
    categories [[1, 1]] and the weights [[1/2, 1/2]], [ppf(9/10)] falls back
    to the last category, [1], and [cdf(1)] is [1/2]. *)
Lemma cdf_ppf_below_q :
  FDRV_Q "twice" [1; 1]%Z [1#2; 1#2]%Q = Ok twice /\
  num_lt num_zero (9#10)%Q = true /\ num_le (9#10)%Q num_one = true /\
  FDRV.ppf str_Z twice (9#10)%Q = Ok 1%Z /\
  FDRV.cdf str_Z twice 1%Z = Ok (1#2)%Q /\
  num_le (9#10)%Q (1#2)%Q = false /\
  ~ reaches str_Z twice (9#10)%Q 1%Z.
Proof.
  split_and!; [reflexivity..|]. by intros (c & [= <-] & Hc).
Qed.

(** The biased coin at [q = 19/20], reached at tails. *)
Lemma cdf_ppf_reaches_witness :
  num_lt num_zero (19#20)%Q = true /\ num_le (19#20)%Q num_one = true /\
  (exists y, y ∈ FDRV.xs coin /\ reaches str_Z coin (19#20)%Q y) /\
  exists x, FDRV.ppf str_Z coin (19#20)%Q = Ok x /\
    reaches str_Z coin (19#20)%Q x.
Proof.
  assert (num_lt num_zero (19#20)%Q = true) as Hpos by reflexivity.
  assert (num_le (19#20)%Q num_one = true) as Hone by reflexivity.
  assert (exists y, y ∈ FDRV.xs coin /\ reaches str_Z coin (19#20)%Q y) as Hsome.
  { exists 1%Z. split; [apply (bool_decide_unpack _); reflexivity|].
    eexists. split; reflexivity. }
  split_and!; [done..|].
  by apply cdf_ppf_reaches.
Defined.

(** The weights [[1/4, 1/2, 1/4]]: the greatest is at the position [1]. *)
Lemma mode_first_greatest_witness :
  FDRV.xs repeated <> [] /\ ps (FDRV.pspace repeated) <> [] /\
  exists i x p,
    FDRV.xs repeated !! i = Some x /\
    ps (FDRV.pspace repeated) !! i = Some p /\
    FDRV.mode repeated = Ok x /\
    (forall j y w, FDRV.xs repeated !! j = Some y ->
       ps (FDRV.pspace repeated) !! j = Some w -> num_lt p w = false) /\
    (forall j y w, j < i -> FDRV.xs repeated !! j = Some y ->
       ps (FDRV.pspace repeated) !! j = Some w -> num_lt w p = true).
Proof.
  assert (FDRV.xs repeated <> []) as Hxs by done.
  assert (ps (FDRV.pspace repeated) <> []) as Hps by done.
  split_and!; [done..|]. by apply mode_first_greatest.
Defined.

(** * Further properties *)

(** ** Construction and [func] *)

Section FuncFacts.
Context {num : Type} `{PyNum num}.
Context {X : Type} `{EqDecision X}.
Variable FDPSpace_new : list num -> result (FDPSpace num).
Implicit Types (self : FDRV.t num X) (k x : X) (i j : nat).

(** [dict(enumerate(l))] holds at every key the element at that position. *)
Lemma lookup_enumerate_from {A : Type} (l : list A) (n i : nat) :
  (list_to_map (imap (fun m a => (n + m, a)) l) : gmap nat A) !! (n + i)
  = l !! i.
Proof.
  revert n i. induction l as [|a l IH]; intros n i; [done|].
  rewrite imap_cons. simpl list_to_map.
  rewrite (imap_ext _ (fun m a => (S n + m, a)) l)
    by (intros; simpl; f_equal; lia).
  destruct i as [|i].
  - rewrite Nat.add_0_r. by rewrite lookup_insert_eq.
  - rewrite lookup_insert_ne by lia.
    replace (n + S i) with (S n + i) by lia. apply IH.
Qed.

Lemma lookup_dict_enumerate {A : Type} (l : list A) (i : nat) :
  (list_to_map (enumerate l) : gmap nat A) !! i = l !! i.
Proof. apply (lookup_enumerate_from l 0 i). Qed.

(** What [__init__] builds when the collaborator accepts the weights. *)
Lemma init_Ok (name : string) (xs : list X) (ps : list num) self :
  FDRV.__init__ FDPSpace_new name xs ps = Ok self ->
  FDRV.xs self = xs /\ FDRV._xdict self = list_to_map (enumerate xs) /\
  FDRV.name self = name /\ FDPSpace_new ps = Ok (FDRV.pspace self).
Proof.
  unfold FDRV.__init__. destruct (FDPSpace_new ps) as [space|e]; simpl; [|done].
  by intros [= <-].
Qed.

(** X1. On a constructed variable, [func(i)] returns the category stored at
    the position [i], and raises [KeyError] when [i] is past the last
    position. *)
Theorem func_position (name : string) (xs : list X) (ps : list num) self i :
  FDRV.__init__ FDPSpace_new name xs ps = Ok self ->
  (forall x, xs !! i = Some x -> FDRV.func self i = Ok x) /\
  (length xs <= i -> FDRV.func self i = Raise KeyError).
Proof.
  intros (_ & Hdict & _)%init_Ok. unfold FDRV.func.
  rewrite Hdict, lookup_dict_enumerate. split.
  - by intros x ->.
  - intros Hi. by rewrite lookup_ge_None_2.
Qed.

(** X2. On a constructed variable, [func] undoes [index]: for a category
    [k], [func(xs.index(k))] returns [k]. *)
Theorem func_index (name : string) (xs : list X) (ps : list num) self k :
  FDRV.__init__ FDPSpace_new name xs ps = Ok self ->
  k ∈ xs ->
  exists i, index (FDRV.xs self) k = Ok i /\ FDRV.func self i = Ok k.
Proof.
  intros (Hxs & Hdict & _)%init_Ok Hk. rewrite Hxs.
  destruct (index_elem_of xs k Hk) as (i & Hi & _).
  exists i. split; [done|]. unfold FDRV.func.
  rewrite Hdict, lookup_dict_enumerate.
  apply index_Ok in Hi as [-> _]. done.
Qed.

End FuncFacts.

(** ** [items], [support], and where [pmf] and [cdf] raise *)

Section SupportFacts.
Context {num : Type} `{PyNum num}.
Context {X : Type} `{EqDecision X}.
Variable str : X -> string.
Implicit Types (self : FDRV.t num X) (k x : X) (p : num) (i j : nat).

(** A category is in [support] when one of its items has a positive
    weight. *)
Lemma support_item self x :
  x ∈ FDRV.support self <->
  exists i p, FDRV.items self !! i = Some (x, p) /\ num_lt num_zero p = true.
Proof.
  unfold FDRV.support. rewrite list_elem_of_fmap. split.
  - intros ([x' p] & -> & [Hpos [i Hi]%list_elem_of_lookup]%list_elem_of_filter).
    by exists i, p.
  - intros (i & p & Hi & Hpos). exists (x, p). split; [done|].
    apply list_elem_of_filter. split; [done|].
    apply list_elem_of_lookup. by exists i.
Qed.

(** X3. [support] holds exactly the categories that stand at a position
    whose weight is positive. *)
Theorem support_elem_of self x :
  x ∈ FDRV.support self <->
  exists i p, FDRV.xs self !! i = Some x /\
    ps (FDRV.pspace self) !! i = Some p /\ num_lt num_zero p = true.
Proof.
  rewrite support_item. split.
  - intros (i & p & [Hx Hp]%lookup_items & Hpos). by exists i, p.
  - intros (i & p & Hx & Hp & Hpos). exists i, p.
    split; [by apply lookup_items|done].
Qed.

(** X4. [support] lists its categories in stored order: it is the sequence
    of categories with some positions left out. *)
Theorem support_sublist self : FDRV.support self `sublist_of` FDRV.xs self.
Proof.
  unfold FDRV.support, FDRV.items.
  trans (fst <$> zip (FDRV.xs self) (ps (FDRV.pspace self))).
  - apply fmap_sublist, sublist_filter.
  - rewrite fst_zip_take. apply sublist_take.
Qed.

(** X5. When no category is listed twice, [support] holds exactly the
    categories at which [pmf] returns a positive number. *)
Theorem support_pmf_positive self x :
  NoDup (FDRV.xs self) ->
  x ∈ FDRV.support self <->
  x ∈ FDRV.xs self /\
  exists p, FDRV.pmf self x = Ok p /\ num_lt num_zero p = true.
Proof.
  intros Hnd. rewrite support_item. split.
  - intros (i & p & [Hx Hp]%lookup_items & Hpos).
    split; [by eapply list_elem_of_lookup_2|].
    exists p. split; [|done].
    rewrite (pmf_index_Ok self x i).
    + unfold getitem. by rewrite Hp.
    + apply (index_NoDup_prefix _ (length (FDRV.xs self))); [|by eapply lookup_lt_Some|done].
      by rewrite firstn_all.
  - intros [(i & Hi & _)%index_elem_of (p & Hp & Hpos)].
    rewrite (pmf_index_Ok self x i Hi) in Hp. unfold getitem in Hp.
    destruct (ps (FDRV.pspace self) !! i) as [p'|] eqn:Hp'; [|done].
    injection Hp as ->. apply index_Ok in Hi as [Hx _]. exists i, p.
    split; [by apply lookup_items|done].
Qed.

(** X6. [pmf] raises nothing but [IndexError], and raises it exactly at a
    category whose first position has no weight. *)
Theorem pmf_Raise_iff self k (e : exn) :
  FDRV.pmf self k = Raise e <->
  e = IndexError /\
  exists i, first_at (FDRV.xs self) k i /\ length (ps (FDRV.pspace self)) <= i.
Proof.
  unfold FDRV.pmf.
  destruct (index (FDRV.xs self) k) as [i|e'] eqn:Hi.
  - unfold getitem. destruct (ps (FDRV.pspace self) !! i) as [p|] eqn:Hp.
    + split; [done|]. intros (_ & j & Hj%first_at_index & Hlen).
      assert (j = i) as -> by congruence.
      apply lookup_lt_Some in Hp. lia.
    + split.
      * intros [= <-]. split; [done|]. exists i.
        split; [by apply first_at_index|]. by apply lookup_ge_None.
      * by intros [-> _].
  - assert (e' = ValueError "value is not in list") as ->.
    { unfold index in Hi. destruct (list_find _ _) as [[? ?]|]; congruence. }
    split; [done|]. intros (_ & j & Hj%first_at_index & _). congruence.
Qed.

(** X7. [cdf] raises exactly when [k] is not one of the categories: at a
    category it returns a number, with or without a weight for it. *)
Theorem cdf_Raise_iff self k :
  (exists e, FDRV.cdf str self k = Raise e) <-> k ∉ FDRV.xs self.
Proof.
  split.
  - intros [e He] Hk. destruct (cdf_elem_of str self k Hk) as [c Hc]. congruence.
  - intros Hk%index_Raise. unfold FDRV.cdf. rewrite Hk. by eexists.
Qed.

(** X8. When no category is listed twice and each has its weight, the
    values of [pmf] over the categories add up to the sum of the weights. *)
Theorem sum_pmf_total self :
  NoDup (FDRV.xs self) ->
  length (FDRV.xs self) = length (ps (FDRV.pspace self)) ->
  sum_pmf self (FDRV.xs self) = Ok (py_sum (ps (FDRV.pspace self))).
Proof.
  intros Hnd Hlen. apply sum_pmf_from_weights.
  apply Forall2_same_length_lookup. split; [done|].
  intros i x p Hx Hp.
  rewrite (pmf_index_Ok self x i).
  - unfold getitem. by rewrite Hp.
  - apply (index_NoDup_prefix _ (length (FDRV.xs self))); [|by eapply lookup_lt_Some|done].
    by rewrite firstn_all.
Qed.

(** X9. When no category is listed twice and there are no more weights
    than categories, [cdf] at the last category is the sum of all the
    weights. *)
Theorem cdf_last_total self x :
  NoDup (FDRV.xs self) ->
  length (ps (FDRV.pspace self)) <= length (FDRV.xs self) ->
  last (FDRV.xs self) = Some x ->
  FDRV.cdf str self x = Ok (py_sum (ps (FDRV.pspace self))).
Proof.
  intros Hnd Hlen [l Hl]%last_Some.
  assert (length (FDRV.xs self) = S (length l)) as Hlen'.
  { rewrite Hl, length_app. simpl. lia. }
  rewrite (cdf_index_Ok str self x (length l)).
  - rewrite take_ge by lia. done.
  - apply (index_NoDup_prefix _ (length (FDRV.xs self))); [|lia|].
    + by rewrite firstn_all.
    + rewrite Hl. by rewrite lookup_app_r, Nat.sub_diag.
Qed.

End SupportFacts.

(** ** [_cdf] along the positions *)

Section CdfAtFacts.
Context {num : Type} `{PyNum num}.
Context {X : Type} `{EqDecision X}.
Implicit Types (self : FDRV.t num X) (k x : X) (p : num) (i j : nat).

(** [_cdf(i)] adds the weights of the first [i + 1] items. *)
Lemma _cdf_items self i :
  FDRV._cdf self i = py_sum (take (S i) (snd <$> FDRV.items self)).
Proof.
  unfold FDRV._cdf, enumerate. f_equal.
  change (fun jxp : nat * (X * num) => snd (snd jxp))
    with (@snd X num ∘ @snd nat (X * num)).
  rewrite list_fmap_compose.
  etrans; [apply (f_equal (fmap snd)),
             (filter_enumerate_le (FDRV.items self) 0 i)|].
  by rewrite Nat.sub_0_r, fmap_take.
Qed.

Lemma py_sum_snoc (l : list num) p :
  py_sum (l ++ [p]) = num_add (py_sum l) p.
Proof. unfold py_sum. by rewrite foldl_app. Qed.

(** X10. [_cdf] is a running sum: at the first position it is [0] plus the
    first weight, and at each later position that has an item it is its
    value at the position before plus the weight of that item. *)
Theorem cdf_at_recurrence self :
  (forall x p, FDRV.items self !! 0 = Some (x, p) ->
     FDRV._cdf self 0 = num_add num_zero p) /\
  (forall i x p, FDRV.items self !! S i = Some (x, p) ->
     FDRV._cdf self (S i) = num_add (FDRV._cdf self i) p).
Proof.
  split.
  - intros x p Hi. rewrite _cdf_items.
    erewrite (take_S_r _ 0 p) by (by rewrite list_lookup_fmap, Hi).
    by rewrite take_0.
  - intros i x p Hi. rewrite !_cdf_items.
    erewrite (take_S_r _ (S i) p) by (by rewrite list_lookup_fmap, Hi).
    apply py_sum_snoc.
Qed.

(** X11. From the last item on [_cdf] stays at the sum of the weights of
    all the items, however large the position. *)
Theorem cdf_at_saturates self i :
  length (FDRV.items self) <= S i ->
  FDRV._cdf self i = py_sum (snd <$> FDRV.items self).
Proof.
  intros Hi. rewrite _cdf_items, take_ge; [done|].
  by rewrite length_fmap.
Qed.

End CdfAtFacts.

(** ** Order: [cdf], [ppf] and [mode] *)

Section OrderFacts.
Context {num : Type} `{PyNumOrder num}.

Lemma num_le_refl `{!PyNumAdd num} (a : num) : num_le a a = true.
Proof. by rewrite num_le_lt, num_lt_irrefl. Qed.

Lemma num_le_trans `{!PyNumAdd num} (a b c : num) :
  num_le a b = true -> num_le b c = true -> num_le a c = true.
Proof.
  rewrite !num_le_lt, !negb_true_iff. intros Hba Hcb.
  destruct (num_lt c a) eqn:Hca; [|done].
  rewrite <- Hba. symmetry. by eapply num_lt_cotrans.
Qed.

(** Prefix sums of weights that are not negative do not decrease. *)
Lemma py_sum_take_mono `{!PyNumAdd num} (l : list num) (i j : nat) :
  Forall (fun p => num_lt p num_zero = false) l ->
  i <= j ->
  num_le (py_sum (take i l)) (py_sum (take j l)) = true.
Proof.
  intros Hl Hij. induction Hij as [|j Hij IH]; [apply num_le_refl|].
  destruct (l !! j) as [p|] eqn:Hp.
  - rewrite (take_S_r _ _ _ Hp), py_sum_snoc.
    eapply num_le_trans; [done|]. apply num_add_nonneg.
    exact (Forall_lookup_1 _ _ _ _ Hl Hp).
  - apply lookup_ge_None in Hp. rewrite (take_ge l (S j)) by lia.
    by rewrite (take_ge l j) in IH by lia.
Qed.

(** Prefix sums of positive weights increase, when addition is exact. *)
Lemma py_sum_take_strict `{!PyNumExact num} (l : list num) (i j : nat) :
  Forall (fun p => num_lt num_zero p = true) l ->
  i < j -> j <= length l ->
  num_lt (py_sum (take i l)) (py_sum (take j l)) = true.
Proof.
  intros Hl Hij. induction Hij as [|j Hij IH]; intros Hj.
  - destruct (lookup_lt_is_Some_2 l i) as [p Hp]; [lia|].
    rewrite (take_S_r _ _ _ Hp), py_sum_snoc. apply num_add_pos.
    exact (Forall_lookup_1 _ _ _ _ Hl Hp).
  - destruct (lookup_lt_is_Some_2 l j) as [p Hp]; [lia|].
    rewrite (take_S_r _ _ _ Hp), py_sum_snoc.
    eapply num_lt_trans; [apply IH; lia|]. apply num_add_pos.
    exact (Forall_lookup_1 _ _ _ _ Hl Hp).
Qed.

Context {X : Type} `{EqDecision X}.
Variable str : X -> string.
Implicit Types (self : FDRV.t num X) (k x : X) (q : num) (i j : nat).

(** X12. With weights that are not negative, [cdf] does not decrease along
    the stored order: a category that first occurs later has a [cdf] at
    least as large. *)
Theorem cdf_monotone `{!PyNumAdd num} self k k' i j :
  Forall (fun p => num_lt p num_zero = false) (ps (FDRV.pspace self)) ->
  first_at (FDRV.xs self) k i -> first_at (FDRV.xs self) k' j -> i <= j ->
  exists c c', FDRV.cdf str self k = Ok c /\ FDRV.cdf str self k' = Ok c' /\
    num_le c c' = true.
Proof.
  intros Hps Hi%first_at_index Hj%first_at_index Hij.
  eexists _, _. split_and!; [by apply cdf_index_Ok..|].
  apply py_sum_take_mono; [done|lia].
Qed.

(** Where the loop of [ppf] returns, no earlier element reaches [q]. *)
Lemma ppf_loop_Some_first self q (l : list X) x :
  FDRV.ppf_loop str self q l = Ok (Some x) ->
  exists i, l !! i = Some x /\
    forall j y, j < i -> l !! j = Some y -> ~ reaches str self q y.
Proof.
  induction l as [|z l IH]; simpl; [done|].
  destruct (FDRV.cdf str self z) as [c|e] eqn:Hc; simpl; [|done].
  destruct (num_le q c) eqn:Hq.
  - intros [= <-]. exists 0. split; [done|]. intros j y Hj. lia.
  - intros (i & Hi & Hbefore)%IH. exists (S i). split; [done|].
    intros [|j] y Hj Hy.
    + injection Hy as <-. intros (c' & Hc' & Hq'). congruence.
    + apply (Hbefore j); [lia|done].
Qed.

(** In a sequence without repetition every category is found where it
    stands. *)
Lemma index_NoDup (l : list X) i x :
  NoDup l -> l !! i = Some x -> index l x = Ok i.
Proof.
  intros Hnd Hx. apply (index_NoDup_prefix l (length l)); [|by eapply lookup_lt_Some|done].
  by rewrite firstn_all.
Qed.

(** X13. With exact addition, positive weights and no category listed
    twice, [ppf] undoes [cdf]: when [cdf(x)] is at most [1], [ppf(cdf(x))]
    returns [x]. *)
Theorem ppf_cdf `{!PyNumAdd num} `{!PyNumExact num} self x c :
  NoDup (FDRV.xs self) ->
  length (FDRV.xs self) <= length (ps (FDRV.pspace self)) ->
  Forall (fun p => num_lt num_zero p = true) (ps (FDRV.pspace self)) ->
  FDRV.cdf str self x = Ok c ->
  num_le c num_one = true ->
  FDRV.ppf str self c = Ok x.
Proof.
  intros Hnd Hlen Hpos Hc Hone.
  assert (x ∈ FDRV.xs self) as [i Hx]%list_elem_of_lookup.
  { destruct (decide (x ∈ FDRV.xs self)) as [|Hx]; [done|].
    apply index_Raise in Hx. unfold FDRV.cdf in Hc. by rewrite Hx in Hc. }
  pose proof (lookup_lt_Some _ _ _ Hx) as Hi.
  rewrite (cdf_index_Ok str self x i) in Hc by (by apply index_NoDup).
  injection Hc as <-.
  assert (num_lt num_zero (py_sum (take (S i) (ps (FDRV.pspace self)))) = true)
    as Hc0 by (apply (py_sum_take_strict _ 0 (S i) Hpos); lia).
  unfold FDRV.ppf. rewrite Hc0, Hone. simpl.
  rewrite (ppf_loop_first str self _ _ i x); [done|done| | |].
  - eexists. split; [by apply cdf_index_Ok, index_NoDup|]. apply num_le_refl.
  - intros j y Hj Hy (c' & Hc' & Hq).
    rewrite (cdf_index_Ok str self y j) in Hc' by (by apply index_NoDup).
    injection Hc' as <-.
    rewrite num_le_lt, (py_sum_take_strict _ (S j) (S i) Hpos) in Hq by lia.
    done.
  - intros j y _ Hy. by eapply list_elem_of_lookup_2.
Qed.

(** X14. With no category listed twice, [ppf] does not go backwards: for
    [q <= q'] in [(0, 1]], [ppf(q)] stands at or before [ppf(q')]. *)
Theorem ppf_monotone `{!PyNumAdd num} self q q' x x' i j :
  NoDup (FDRV.xs self) ->
  num_lt num_zero q = true -> num_le q q' = true ->
  num_le q' num_one = true ->
  FDRV.ppf str self q = Ok x ->
  FDRV.ppf str self q' = Ok x' ->
  FDRV.xs self !! i = Some x -> FDRV.xs self !! j = Some x' ->
  i <= j.
Proof.
  intros Hnd Hpos Hqq Hone Hx Hx' Hi Hj.
  assert (num_le q num_one = true) as Hone_q
    by (by apply (num_le_trans q q' num_one)).
  assert (num_lt num_zero q' = true) as Hpos_q'.
  { rewrite num_le_lt, negb_true_iff in Hqq.
    destruct (num_lt num_zero q') eqn:Hq'; [done|].
    rewrite <- Hqq. by eapply num_lt_cotrans. }
  unfold FDRV.ppf in Hx, Hx'.
  rewrite Hpos, Hone_q in Hx. rewrite Hpos_q', Hone in Hx'. simpl in Hx, Hx'.
  destruct (ppf_loop_total str self q (FDRV.xs self)) as [r Hr]; [done|].
  destruct (ppf_loop_total str self q' (FDRV.xs self)) as [r' Hr']; [done|].
  rewrite Hr in Hx. rewrite Hr' in Hx'. simpl in Hx, Hx'.
  destruct r' as [y'|].
  - injection Hx' as ->.
    assert (reaches str self q x') as Hreach.
    { destruct (ppf_loop_Some str self q' _ _ Hr') as (c & Hc & Hq').
      exists c. split; [done|]. by apply (num_le_trans q q' c). }
    destruct (ppf_loop_finds str self q (FDRV.xs self) x') as [y Hy];
      [done|by eapply list_elem_of_lookup_2|done|].
    rewrite Hy in Hr. injection Hr as <-. injection Hx as ->.
    destruct (ppf_loop_Some_first self q _ _ Hy) as (i' & Hi' & Hbefore).
    assert (i' = i) as -> by (by eapply NoDup_lookup).
    destruct (decide (i <= j)) as [|Hji]; [done|].
    destruct (Hbefore j x'); [lia|done..].
  - unfold getitem_last in Hx'.
    destruct (last (FDRV.xs self)) as [z|] eqn:Hlast; [|done].
    injection Hx' as ->. apply last_Some in Hlast as [l Hl].
    assert (j = length l) as ->.
    { eapply NoDup_lookup; [done..|].
      rewrite Hl. by rewrite lookup_app_r, Nat.sub_diag. }
    apply lookup_lt_Some in Hi. rewrite Hl, length_app in Hi. simpl in Hi. lia.
Qed.

(** What [mode] returns heads an item of greatest weight. *)
Lemma mode_Ok_greatest (self : FDRV.t num X) (m : X) :
  FDRV.mode self = Ok m ->
  exists i p, FDRV.items self !! i = Some (m, p) /\
    forall j y w, FDRV.items self !! j = Some (y, w) -> num_lt p w = false.
Proof.
  unfold FDRV.mode. destruct (FDRV.items self) as [|t l] eqn:Hitems; [done|].
  simpl. intros [= <-].
  destruct (max_from_first_greatest snd [t] l 0 t) as (i & Hi & Hall & _).
  - done.
  - intros [|j] y [=]. subst. apply num_lt_irrefl.
  - intros j y Hj. lia.
  - destruct (max_from snd t l) as [m p] eqn:Hmax.
    exists i, p. split; [done|].
    intros j y w Hy. by apply (Hall j (y, w)).
Qed.

(** X15. With no category listed twice, [mode] is where [pmf] takes its
    greatest value: [pmf] at no category exceeds [pmf] at the mode. *)
Theorem mode_pmf_greatest self m k pm p :
  NoDup (FDRV.xs self) ->
  FDRV.mode self = Ok m ->
  k ∈ FDRV.xs self ->
  FDRV.pmf self m = Ok pm -> FDRV.pmf self k = Ok p ->
  num_lt pm p = false.
Proof.
  intros Hnd (i & pm' & [Hm Hpm']%lookup_items & Hall)%mode_Ok_greatest
    [j Hk]%list_elem_of_lookup Hpm Hp.
  rewrite (pmf_index_Ok self m i) in Hpm by (by apply index_NoDup).
  rewrite (pmf_index_Ok self k j) in Hp by (by apply index_NoDup).
  unfold getitem in Hpm, Hp. rewrite Hpm' in Hpm. injection Hpm as <-.
  destruct (ps (FDRV.pspace self) !! j) as [p'|] eqn:Hp'; [|done].
  injection Hp as ->. apply (Hall j k). by apply lookup_items.
Qed.

(** X16. When some category has a positive weight, [mode] returns one of
    the categories of [support]. *)
Theorem mode_in_support self :
  FDRV.support self <> [] ->
  exists m, FDRV.mode self = Ok m /\ m ∈ FDRV.support self.
Proof.
  intros Hne.
  destruct (FDRV.support self) as [|x l] eqn:Hsupp; [done|].
  assert (x ∈ FDRV.support self) as (i & w & Hi & Hw)%support_item.
  { rewrite Hsupp. by left. }
  rewrite <- Hsupp.
  assert (exists m, FDRV.mode self = Ok m) as [m Hm].
  { unfold FDRV.mode. destruct (FDRV.items self); [done|]. by eexists. }
  exists m. split; [done|].
  destruct (mode_Ok_greatest self m Hm) as (i' & p & Hi' & Hall).
  apply support_item. exists i', p. split; [done|].
  destruct (num_lt num_zero p) eqn:Hp; [done|].
  rewrite <- (Hall i x w Hi). by eapply num_lt_cotrans.
Qed.

End OrderFacts.

(** ** [map] on the general variable *)

Section MapFacts.
Context {P Omega : Type}.

(** X17. Mapping [f] and then [g] gives the variable that mapping their
    composition gives: the same probability space, the outcome function
    followed by [f] and then by [g], and the last name. *)
Theorem map_compose {U V W : Type} (self : DRV.t (P:=P) (Omega:=Omega) U)
    (f : U -> V) (g : V -> W) (name1 name2 : string) :
  (drv ← DRV.map self f name1 None false; DRV.map drv g name2 None false)
  = DRV.map self (fun u => g (f u)) name2 None false.
Proof. reflexivity. Qed.

(** With [flatten=True] and the class of the variable, [map] raises
    [NotImplementedError], whatever the function: the variable is built and
    its [flatten] is not implemented. *)
Theorem map_flatten_raises {V W : Type} (self : DRV.t (P:=P) (Omega:=Omega) V)
    (function : V -> W) (name : string) :
  DRV.map self function name None true = Raise NotImplementedError.
Proof. reflexivity. Qed.

End MapFacts.

(** ** Exact weights, continued *)

#[export] Instance Q_num_add : PyNumAdd Q.
Proof.
  split.
  - intros a b. simpl. by rewrite negb_involutive.
  - intros a p Hp%Q_num_lt_false_iff. simpl. apply Qle_bool_iff.
    rewrite <- (Qplus_0_r a) at 1. by apply Qplus_le_r.
Qed.

#[export] Instance Q_num_exact : PyNumExact Q.
Proof.
  split. intros a p Hp%Q_num_lt_iff. apply Q_num_lt_iff.
  rewrite <- (Qplus_0_r a) at 1. by apply Qplus_lt_r.
Qed.

(** ** The further properties on the fair die and the biased coin *)

Lemma die_NoDup : NoDup (FDRV.xs die).
Proof. apply (bool_decide_unpack _). reflexivity. Qed.

Lemma die_positive :
  Forall (fun p : Q => num_lt num_zero p = true) (ps (FDRV.pspace die)).
Proof. repeat constructor. Qed.

Lemma die_nonnegative :
  Forall (fun p : Q => num_lt p num_zero = false) (ps (FDRV.pspace die)).
Proof. repeat constructor. Qed.

(** The die is constructed; position [2] holds [3] and position [6] is past
    the end. *)
Lemma func_position_witness :
  FDRV_Q "d6" [1; 2; 3; 4; 5; 6]%Z [1; 1; 1; 1; 1; 1]%Q = Ok die /\
  FDRV.func die 2 = Ok 3%Z /\ FDRV.func die 6 = Raise KeyError.
Proof.
  assert (FDRV_Q "d6" [1; 2; 3; 4; 5; 6]%Z [1; 1; 1; 1; 1; 1]%Q = Ok die)
    as Hdie by reflexivity.
  split; [done|].
  destruct (func_position FDPSpace_spec _ _ _ die 2 Hdie) as [Hin _].
  destruct (func_position FDPSpace_spec _ _ _ die 6 Hdie) as [_ Hout].
  split; [by apply Hin|]. apply Hout. simpl. lia.
Defined.

Lemma func_index_witness :
  FDRV_Q "d6" [1; 2; 3; 4; 5; 6]%Z [1; 1; 1; 1; 1; 1]%Q = Ok die /\
  (3%Z ∈ [1; 2; 3; 4; 5; 6]%Z) /\
  exists i, index (FDRV.xs die) 3%Z = Ok i /\ FDRV.func die i = Ok 3%Z.
Proof.
  assert (FDRV_Q "d6" [1; 2; 3; 4; 5; 6]%Z [1; 1; 1; 1; 1; 1]%Q = Ok die)
    as Hdie by reflexivity.
  assert (3%Z ∈ [1; 2; 3; 4; 5; 6]%Z) as Hk.
  { apply (bool_decide_unpack _). reflexivity. }
  split_and!; [done..|].
  exact (func_index FDPSpace_spec "d6" [1; 2; 3; 4; 5; 6]%Z
           [1; 1; 1; 1; 1; 1]%Q die 3%Z Hdie Hk).
Defined.

Lemma support_pmf_positive_witness :
  NoDup (FDRV.xs die) /\
  (3%Z ∈ FDRV.support die <->
   3%Z ∈ FDRV.xs die /\
   exists p, FDRV.pmf die 3%Z = Ok p /\ num_lt num_zero p = true).
Proof.
  split; [apply die_NoDup|]. apply support_pmf_positive, die_NoDup.
Defined.

Lemma sum_pmf_total_witness :
  NoDup (FDRV.xs die) /\
  length (FDRV.xs die) = length (ps (FDRV.pspace die)) /\
  sum_pmf die (FDRV.xs die) = Ok (py_sum (ps (FDRV.pspace die))).
Proof.
  split_and!; [apply die_NoDup|done|].
  apply sum_pmf_total; [apply die_NoDup|done].
Defined.

Lemma cdf_last_total_witness :
  NoDup (FDRV.xs die) /\
  length (ps (FDRV.pspace die)) <= length (FDRV.xs die) /\
  last (FDRV.xs die) = Some 6%Z /\
  FDRV.cdf str_Z die 6%Z = Ok (py_sum (ps (FDRV.pspace die))).
Proof.
  assert (length (ps (FDRV.pspace die)) <= length (FDRV.xs die)) as Hlen
    by (simpl; lia).
  split_and!; [apply die_NoDup|done|done|].
  apply cdf_last_total; [apply die_NoDup|done|done].
Defined.

Lemma cdf_at_recurrence_witness :
  FDRV._cdf die 0 = num_add num_zero (1#6)%Q /\
  FDRV._cdf die 3 = num_add (FDRV._cdf die 2) (1#6)%Q.
Proof.
  destruct (cdf_at_recurrence die) as [Hfirst Hnext].
  split; [by apply (Hfirst 1%Z)|by apply (Hnext 2 4%Z)].
Defined.

Lemma cdf_at_saturates_witness :
  length (FDRV.items die) <= 8 /\
  FDRV._cdf die 7 = py_sum (snd <$> FDRV.items die).
Proof.
  assert (length (FDRV.items die) <= 8) as Hlen by (simpl; lia).
  split; [done|]. by apply cdf_at_saturates.
Defined.

Lemma cdf_monotone_witness :
  Forall (fun p : Q => num_lt p num_zero = false) (ps (FDRV.pspace die)) /\
  first_at (FDRV.xs die) 2%Z 1 /\ first_at (FDRV.xs die) 5%Z 4 /\ 1 <= 4 /\
  exists c c', FDRV.cdf str_Z die 2%Z = Ok c /\
    FDRV.cdf str_Z die 5%Z = Ok c' /\ num_le c c' = true.
Proof.
  assert (first_at (FDRV.xs die) 2%Z 1) as H2.
  { split; [reflexivity|]. intros [|j] Hj; [done|lia]. }
  assert (first_at (FDRV.xs die) 5%Z 4) as H5.
  { split; [reflexivity|]. intros [|[|[|[|j]]]] Hj; [done..|lia]. }
  assert (1 <= 4) as Hle by lia.
  split_and!; [apply die_nonnegative|done..|].
  by apply (cdf_monotone str_Z die 2%Z 5%Z 1 4 die_nonnegative).
Defined.

Lemma ppf_cdf_witness :
  NoDup (FDRV.xs die) /\
  length (FDRV.xs die) <= length (ps (FDRV.pspace die)) /\
  Forall (fun p : Q => num_lt num_zero p = true) (ps (FDRV.pspace die)) /\
  FDRV.cdf str_Z die 3%Z = Ok (108#216)%Q /\
  num_le (108#216)%Q num_one = true /\
  FDRV.ppf str_Z die (108#216)%Q = Ok 3%Z.
Proof.
  assert (length (FDRV.xs die) <= length (ps (FDRV.pspace die))) as Hlen
    by (simpl; lia).
  assert (FDRV.cdf str_Z die 3%Z = Ok (108#216)%Q) as Hc by reflexivity.
  assert (num_le (108#216)%Q num_one = true) as Hone by reflexivity.
  split_and!; [apply die_NoDup|done|apply die_positive|done..|].
  by apply (ppf_cdf str_Z die 3%Z _ die_NoDup Hlen die_positive).
Defined.

Lemma ppf_monotone_witness :
  NoDup (FDRV.xs die) /\
  num_lt num_zero (1#3)%Q = true /\ num_le (1#3)%Q (1#2)%Q = true /\
  num_le (1#2)%Q num_one = true /\
  FDRV.ppf str_Z die (1#3)%Q = Ok 2%Z /\
  FDRV.ppf str_Z die (1#2)%Q = Ok 3%Z /\
  1 <= 2.
Proof.
  split_and!; [apply die_NoDup|reflexivity..|].
  by apply (ppf_monotone str_Z die (1#3)%Q (1#2)%Q 2%Z 3%Z 1 2
              die_NoDup).
Defined.

Lemma mode_pmf_greatest_witness :
  NoDup (FDRV.xs coin) /\ FDRV.mode coin = Ok 0%Z /\ (1%Z ∈ FDRV.xs coin) /\
  FDRV.pmf coin 0%Z = Ok (9#10)%Q /\ FDRV.pmf coin 1%Z = Ok (1#10)%Q /\
  num_lt (9#10)%Q (1#10)%Q = false.
Proof.
  assert (NoDup (FDRV.xs coin)) as Hnd.
  { apply (bool_decide_unpack _). reflexivity. }
  assert (1%Z ∈ FDRV.xs coin) as Hk.
  { apply (bool_decide_unpack _). reflexivity. }
  split_and!; [done|reflexivity|done|reflexivity..|].
  by apply (mode_pmf_greatest coin 0%Z 1%Z _ _ Hnd).
Defined.

Lemma mode_in_support_witness :
  FDRV.support die <> [] /\
  exists m, FDRV.mode die = Ok m /\ m ∈ FDRV.support die.
Proof.
  assert (FDRV.support die <> []) as Hne by done.
  split; [done|]. by apply mode_in_support.
Defined.

Lemma ppf_returns_category_witness :
  num_lt num_zero (1#2)%Q = true /\ num_le (1#2)%Q num_one = true /\
  FDRV.xs die <> [] /\
  exists x, FDRV.ppf str_Z die (1#2)%Q = Ok x /\
    x ∈ FDRV.xs die.
Proof.
  assert (FDRV.xs die <> []) as Hne by done.
  split_and!; [reflexivity..|done|].
  by apply ppf_returns_category.
Defined.

Lemma ppf_no_category_witness :
  num_lt num_zero (1#2)%Q = true /\ num_le (1#2)%Q num_one = true /\
  FDRV.xs nothing = [] /\
  FDRV.ppf str_Z nothing (1#2)%Q = Raise IndexError.
Proof.
  split_and!; [reflexivity..|].
  by apply ppf_no_category.
Defined.

Lemma mode_no_item_witness :
  FDRV.items nothing = [] /\
  FDRV.mode nothing = Raise (ValueError "max() arg is an empty sequence").
Proof.
  split; [reflexivity|]. by apply mode_no_item.
Defined.

Lemma cdf_ppf_exact_witness :
  NoDup (FDRV.xs die) /\
  length (FDRV.xs die) = length (ps (FDRV.pspace die)) /\
  FDRV.xs die <> [] /\
  (py_sum (ps (FDRV.pspace die)) == 1)%Q /\
  num_lt num_zero (1#2)%Q = true /\ num_le (1#2)%Q num_one = true /\
  exists x, FDRV.ppf str_Z die (1#2)%Q = Ok x /\
    reaches str_Z die (1#2)%Q x.
Proof.
  assert (FDRV.xs die <> []) as Hne by done.
  assert (py_sum (ps (FDRV.pspace die)) == 1)%Q as Hsum by reflexivity.
  split_and!; [apply die_NoDup|done..|].
  by apply cdf_ppf_exact; [apply die_NoDup|..].
Defined.
